(** * operators.py: the PDF content-stream operator table and its emitter

    A shallow embedding of [pdf/omni/operators.py].  The script holds a
    literal table of rows transcribed from Table A.1 of PDF 32000-1:2008,
    splits every row with one regular expression and prints a Go map
    literal on standard output.

    Python strings are modelled by [string]: a character is a code point
    below 256, which covers every character of the table.  On that range
    the classes of the [re] module are known exactly: [\d] is [0-9], [\s]
    is the set recognised by [str.isspace], and [.] is everything except
    the line feed. *)

From Stdlib Require Import Strings.String Strings.Ascii Numbers.DecimalString.
From Stdlib Require Import Lists.List Arith.Arith Arith.PeanoNat Bool.Bool Lia.
Import ListNotations.

Local Open Scope list_scope.
Local Open Scope string_scope.
Local Open Scope nat_scope.

(** ** Characters that cannot be typed inside a string literal *)

Definition TAB : ascii := "009"%char.
Definition LF : ascii := "010"%char.
Definition DQUOTE : ascii := "034"%char.

(** ** The fragment of Python's [re] used by the script *)

Module Re.

(** Character classes of a [str] pattern compiled without flags. *)
Inductive charset : Type :=
| Any     (* .   every character except the line feed *)
| Space   (* \s  Unicode white space *)
| Digit.  (* \d  decimal digit *)

Definition is_space (c : ascii) : bool :=
  let n := nat_of_ascii c in
  ((9 <=? n) && (n <=? 13)) || ((28 <=? n) && (n <=? 32))
  || (n =? 133) || (n =? 160).

Definition is_digit (c : ascii) : bool :=
  let n := nat_of_ascii c in (48 <=? n) && (n <=? 57).

Definition mem (cs : charset) (c : ascii) : bool :=
  match cs with
  | Any => negb (Ascii.eqb c LF)
  | Space => is_space c
  | Digit => is_digit c
  end.

(** Patterns.  Repetition is over a character class, which is all the
    script's pattern needs; [greedy] tells [*] from [*?]. *)
Inductive regex : Type :=
| Bol                                     (* ^ *)
| Eol                                     (* $ *)
| Star (greedy : bool) (cs : charset)     (* cs*  cs*? *)
| Plus (greedy : bool) (cs : charset)     (* cs+  cs+? *)
| Group (n : nat) (r : regex)             (* ( r ), the n-th group *)
| Opt (r : regex)                         (* r? *)
| Seq (r1 r2 : regex).                    (* r1 r2 *)

(** Spans of the groups that took part in the match, latest first. *)
Definition spans : Type := list (nat * (nat * nat)).

Fixpoint span_of (n : nat) (g : spans) : option (nat * nat) :=
  match g with
  | [] => None
  | (k, sp) :: g' => if k =? n then Some sp else span_of n g'
  end.

(** A match object: the subject, the span of the whole match and the
    spans of the groups. *)
Record Match : Type := mkMatch {
  m_string : string;
  m_start : nat;
  m_end : nat;
  m_spans : spans
}.

(** The matcher backtracks the way [sre] does, written in
    continuation-passing style: [k pos rest g] is what is left of the
    pattern, applied at offset [pos] with [rest] still to read. *)
Definition cont : Type := nat -> string -> spans -> option (nat * spans).

Section Repeat.
Variable cs : charset.
Variable k : cont.

(** Greedy: take a character while the class allows, give back one
    at a time when the rest of the pattern fails. *)
Fixpoint star_greedy (pos : nat) (s : string) (g : spans)
  : option (nat * spans) :=
  match s with
  | String c s' =>
      if mem cs c then
        match star_greedy (S pos) s' g with
        | Some r => Some r
        | None => k pos s g
        end
      else k pos s g
  | EmptyString => k pos s g
  end.

(** Lazy: try the rest of the pattern first, take one more character
    only when it fails. *)
Fixpoint star_lazy (pos : nat) (s : string) (g : spans)
  : option (nat * spans) :=
  match k pos s g with
  | Some r => Some r
  | None =>
      match s with
      | String c s' => if mem cs c then star_lazy (S pos) s' g else None
      | EmptyString => None
      end
  end.

Definition star (greedy : bool) : cont :=
  if greedy then star_greedy else star_lazy.

Definition plus (greedy : bool) : cont :=
  fun pos s g =>
    match s with
    | String c s' => if mem cs c then star greedy (S pos) s' g else None
    | EmptyString => None
    end.
End Repeat.

Fixpoint exec (r : regex) (k : cont) : cont :=
  match r with
  | Bol => fun pos s g => if pos =? 0 then k pos s g else None
  | Eol => fun pos s g =>
      match s with
      | EmptyString => k pos s g
      | String c EmptyString => if Ascii.eqb c LF then k pos s g else None
      | String _ _ => None
      end
  | Star greedy cs => star cs k greedy
  | Plus greedy cs => plus cs k greedy
  | Group n r' => fun pos s g =>
      exec r' (fun pos' s' g' => k pos' s' ((n, (pos, pos')) :: g')) pos s g
  | Opt r' => fun pos s g =>
      match exec r' k pos s g with
      | Some res => Some res
      | None => k pos s g
      end
  | Seq r1 r2 => exec r1 (exec r2 k)
  end.

Definition accept : cont := fun pos _ g => Some (pos, g).

(** [pattern.search(subject)]: the first offset, from the left, at
    which the pattern matches. *)
Fixpoint search_from (r : regex) (subject : string) (pos : nat) (s : string)
  : option Match :=
  match exec r accept pos s [] with
  | Some (e, g) => Some (mkMatch subject pos e g)
  | None =>
      match s with
      | String _ s' => search_from r subject (S pos) s'
      | EmptyString => None
      end
  end.

Definition search (r : regex) (subject : string) : option Match :=
  search_from r subject 0 subject.

(** [m.group(n)] for a group of the pattern; [None] is Python's [None],
    the value of a group that took no part in the match.  The script
    reads groups 1 and 2. *)
Definition group (m : Match) (n : nat) : option string :=
  match n with
  | 0 => Some (substring (m_start m) (m_end m - m_start m) (m_string m))
  | _ =>
      match span_of n (m_spans m) with
      | Some (b, e) => Some (substring b (e - b) (m_string m))
      | None => None
      end
  end.

(** [m.groups()] of a pattern with three groups. *)
Definition groups (m : Match)
  : option string * option string * option string :=
  (group m 1, group m 2, group m 3).

End Re.

(** ** The script *)

(** [RE_LINE = re.compile(r'^(.*?)\s+(.*?)(\d+)?$')] *)
Definition RE_LINE : Re.regex :=
  Re.Seq Re.Bol
    (Re.Seq (Re.Group 1 (Re.Star false Re.Any))
       (Re.Seq (Re.Plus true Re.Space)
          (Re.Seq (Re.Group 2 (Re.Star false Re.Any))
             (Re.Seq (Re.Opt (Re.Group 3 (Re.Plus true Re.Digit)))
                Re.Eol)))).

(** The table, without the rows the source comments out. *)
Definition adobe_lines : list string :=
  "b closepath, fill, stroke Close, fill, and stroke path using nonzero winding number rule 60" ::
  "B fill, stroke Fill and stroke path using nonzero winding number rule 60" ::
  "b* closepath, eofill, stroke Close, fill, and stroke path using even-odd rule 60" ::
  "B* eofill, stroke Fill and stroke path using even-odd rule 60" ::
  "BDC (PDF 1.2) Begin marked-content sequence with property list 320" ::
  "BI Begin inline image object 92" ::
  "BMC (PDF 1.2) Begin marked-content sequence 320" ::
  "BT Begin text object 107" ::
  "BX (PDF 1.1) Begin compatibility section 32" ::
  "c curveto Append curved segment to path (three control points) 59" ::
  "cm concat Concatenate matrix to current transformation matrix 57" ::
  "CS setcolorspace (PDF 1.1) Set color space for stroking operations 74" ::
  "cs setcolorspace (PDF 1.1) Set color space for nonstroking operations 74" ::
  "d setdash Set line dash pattern 57" ::
  "d0 setcharwidth Set glyph width in Type 3 font 113" ::
  "d1 setcachedevice Set glyph width and bounding box in Type 3 font 113" ::
  "Do Invoke named XObject 87" ::
  "DP (PDF 1.2) Define marked-content point with property list 320" ::
  "EI End inline image object 92" ::
  "EMC (PDF 1.2) End marked-content sequence 320" ::
  "ET End text object 107" ::
  "EX (PDF 1.1) End compatibility section 32" ::
  "f fill Fill path using nonzero winding number rule 60" ::
  "F fill Fill path using nonzero winding number rule (obsolete) 60" ::
  "f* eofill Fill path using even-odd rule 60" ::
  "G setgray Set gray level for stroking operations 74" ::
  "g setgray Set gray level for nonstroking operations 74" ::
  "gs (PDF 1.2) Set parameters from graphics state parameter dictionary 57" ::
  "h closepath Close subpath 59" ::
  "i setflat Set flatness tolerance 57" ::
  "ID Begin inline image data 92" ::
  "j setlinejoin Set line join style 57" ::
  "J setlinecap Set line cap style 57" ::
  "K setcmykcolor Set CMYK color for stroking operations 74" ::
  "k setcmykcolor Set CMYK color for nonstroking operations 74" ::
  "l lineto Append straight line segment to path 59" ::
  "m moveto Begin new subpath 59" ::
  "M setmiterlimit Set miter limit 57" ::
  "MP (PDF 1.2) Define marked-content point 320" ::
  "n End path without filling or stroking 60" ::
  "q gsave Save graphics state 57" ::
  "Q grestore Restore graphics state 57" ::
  "re Append rectangle to path 59" ::
  "RG setrgbcolor Set RGB color for stroking operations 74" ::
  "rg setrgbcolor Set RGB color for nonstroking operations 74" ::
  "ri Set color rendering intent 57" ::
  "s closepath, stroke Close and stroke path 60" ::
  "S stroke Stroke path 60" ::
  "SC setcolor (PDF 1.1) Set color for stroking operations 74" ::
  "sc setcolor (PDF 1.1) Set color for nonstroking operations 74" ::
  "SCN setcolor (PDF 1.2) Set color for stroking operations (ICCBased and special colour spaces) 74" ::
  "scn setcolor (PDF 1.2) Set color for nonstroking operations (ICCBased and special colour spaces) 74" ::
  "sh shfill (PDF 1.3) Paint area defined by shading pattern 77" ::
  "T* Move to start of next text line 108" ::
  "Tc Set character spacing" ::
  "Td Move text position 108" ::
  "TD Move text position and set leading 108" ::
  "Tf selectfont Set text font and size" ::
  "Tj show Show text 109" ::
  "TJ Show text, allowing individual glyph positioning 109" ::
  "TL Set text leading" ::
  "Tm Set text matrix and text line matrix 108" ::
  "Tr Set text rendering mode" ::
  "Ts Set text rise" ::
  "Tw Set word spacing" ::
  "Tz Set horizontal text scaling" ::
  "v curveto Append curved segment to path (initial point replicated) 59" ::
  "w setlinewidth Set line width 57" ::
  "W clip Set clipping path using nonzero winding number rule 61" ::
  "W* eoclip Set clipping path using even-odd rule 61" ::
  "y curveto Append curved segment to path (final point replicated) 59" ::
  "' Move to next line and show text 109" ::
  String DQUOTE " Set word and character spacing, move to next line, and show text 109" :: [].

(** *** Execution: standard output and uncaught exceptions *)

(** The one exception the script can raise: [m.group] when
    [RE_LINE.search] returned [None]. *)
Inductive exn : Type :=
| AttributeError.

(** A statement runs on the text written so far and either finishes or
    raises; what was written before the exception stays written. *)
Definition Py (A : Type) : Type := string -> (A + exn) * string.

Definition ret {A : Type} (a : A) : Py A := fun out => (inl a, out).

Definition raise {A : Type} (e : exn) : Py A := fun out => (inr e, out).

Definition bind {A B : Type} (m : Py A) (f : A -> Py B) : Py B :=
  fun out =>
    match m out with
    | (inl a, out') => f a out'
    | (inr e, out') => (inr e, out')
    end.

Notation "x <- m ;; f" := (bind m (fun x => f))
  (at level 61, m at next level, right associativity).
Notation "m ;;; f" := (bind m (fun _ => f))
  (at level 61, right associativity).

(** [print(s)] writes [s] and a line feed. *)
Definition print (s : string) : Py unit :=
  fun out => (inl tt, out ++ s ++ String LF "").

(** [m.group(n)] where [m] may be [None]. *)
Definition getattr_group (m : option Re.Match) (n : nat) : Py (option string) :=
  match m with
  | Some m' => ret (Re.group m' n)
  | None => raise AttributeError
  end.

(** *** String formatting *)

Fixpoint spaces (n : nat) : string :=
  match n with
  | 0 => ""
  | S n' => String " " (spaces n')
  end.

(** ['%d' % n] *)
Definition fmt_d (n : nat) : string := NilZero.string_of_uint (Nat.to_uint n).

(** ['%3d' % n]: right-justified in a field of three columns. *)
Definition fmt_3d (n : nat) : string :=
  let d := fmt_d n in spaces (3 - String.length d) ++ d.

(** ['%s' % v] for a value that is a string or [None]. *)
Definition fmt_s (v : option string) : string :=
  match v with
  | Some s => s
  | None => "None"
  end.

(** ['\t`%s`: false,  // %3d: %s' % (name, i, text)] *)
Definition fmt_row (name : option string) (i : nat) (text : option string)
  : string :=
  String TAB "`" ++ fmt_s name ++ "`: false,  // " ++ fmt_3d i ++ ": "
  ++ fmt_s text.

(** *** The statements of the module *)

(** The body of the loop. *)
Definition emit_row (i : nat) (line : string) : Py unit :=
  let m := Re.search RE_LINE line in
  name <- getattr_group m 1 ;;
  text <- getattr_group m 2 ;;
  print (fmt_row name i text).

(** [for i, line in enumerate(rows): body], counting from [i]. *)
Fixpoint for_enumerate (body : nat -> string -> Py unit) (i : nat)
  (rows : list string) : Py unit :=
  match rows with
  | [] => ret tt
  | line :: rows' => body i line ;;; for_enumerate body (S i) rows'
  end.

Definition HEADER : string := "var markingOperators = map[string]bool{".
Definition FOOTER : string := "}".

(** ['%d lines' % len(rows)] *)
Definition count_line (rows : list string) : string :=
  fmt_d (List.length rows) ++ " lines".

(** The script over a table [rows]. *)
Definition script (rows : list string) : Py unit :=
  print (count_line rows) ;;;
  print HEADER ;;;
  for_enumerate emit_row 0 rows ;;;
  print FOOTER.

(** Running the module: standard output starts empty. *)
Definition main : (unit + exn) * string := script adobe_lines "".

(** The exit status of the interpreter: 0 when the module ran to its end,
    1 when an exception reached the top level. *)
Definition exit_status (r : (unit + exn) * string) : nat :=
  match fst r with
  | inl _ => 0
  | inr _ => 1
  end.

Definition stdout (r : (unit + exn) * string) : string := snd r.

(** *** Reading the output back *)

(** The lines of a text, each ended by a line feed (a last line may lack
    it). *)
Fixpoint lines (s : string) : list string :=
  match s with
  | EmptyString => []
  | String c s' =>
      if Ascii.eqb c LF then "" :: lines s'
      else
        match lines s' with
        | [] => [String c ""]
        | l :: ls => String c l :: ls
        end
  end.

(** The number of line feeds written. *)
Fixpoint count_lf (s : string) : nat :=
  match s with
  | EmptyString => 0
  | String c s' => (if Ascii.eqb c LF then 1 else 0) + count_lf s'
  end.

Definition unlines (ls : list string) : string :=
  fold_right (fun l acc => l ++ String LF acc) "" ls.

(** *** Predicates on rows *)

Fixpoint any (p : ascii -> bool) (s : string) : bool :=
  match s with
  | EmptyString => false
  | String c s' => p c || any p s'
  end.

Fixpoint all (p : ascii -> bool) (s : string) : bool :=
  match s with
  | EmptyString => true
  | String c s' => p c && all p s'
  end.

Definition head_is (p : ascii -> bool) (s : string) : bool :=
  match s with
  | String c _ => p c
  | EmptyString => false
  end.

Definition has_space (s : string) : bool := any Re.is_space s.

Definition has_lf (s : string) : bool := any (fun c => Ascii.eqb c LF) s.

Fixpoint last_char (s : string) : option ascii :=
  match s with
  | EmptyString => None
  | String c EmptyString => Some c
  | String _ s' => last_char s'
  end.

Definition ends_in_digit (s : string) : bool :=
  match last_char s with
  | Some c => Re.is_digit c
  | None => false
  end.

(** The span of the page group after a text that ends at offset [p]:
    the group takes part only when there are digits. *)
Definition page_span (p : nat) (d : string) : Re.spans :=
  match d with
  | EmptyString => []
  | String _ _ => [(3, (p, p + String.length d))]
  end.

(** The text the loop hands to [print] for row [i], when the row matches. *)
Definition row_text (i : nat) (line : string) : option string :=
  match Re.search RE_LINE line with
  | Some m => Some (fmt_row (Re.group m 1) i (Re.group m 2))
  | None => None
  end.

(** The texts printed by the loop over [rows], counting from [i]. *)
Fixpoint row_texts (i : nat) (rows : list string) : option (list string) :=
  match rows with
  | [] => Some []
  | line :: rows' =>
      match row_text i line, row_texts (S i) rows' with
      | Some l, Some ls => Some (l :: ls)
      | _, _ => None
      end
  end.


(** The row line as the specification words it: a backtick-quoted
    name, a colon, [false,], two spaces, [//], the index on three
    columns, a colon, a space and the text.  It is compared below with
    [fmt_row], the line the script prints. *)
Definition spec_row_line (name : string) (i : nat) (text : string) : string :=
  "`" ++ name ++ "`" ++ ":" ++ "false," ++ "  " ++ "//" ++ fmt_3d i ++ ":"
  ++ " " ++ text.

(** ** Facts about strings *)

Lemma append_assoc (a b c : string) : (a ++ b) ++ c = a ++ (b ++ c).
Proof.
  induction a as [|x a IH]; simpl; [reflexivity | now rewrite IH].
Qed.

Lemma append_empty_r (a : string) : a ++ "" = a.
Proof.
  induction a as [|x a IH]; simpl; [reflexivity | now rewrite IH].
Qed.

Lemma any_append (p : ascii -> bool) (a b : string) :
  any p (a ++ b) = any p a || any p b.
Proof.
  induction a as [|x a IH]; simpl; [reflexivity|].
  now rewrite IH, orb_assoc.
Qed.

Lemma any_substring (p : ascii -> bool) (s : string) :
  any p s = false -> forall b n, any p (substring b n s) = false.
Proof.
  induction s as [|x s IH]; intros H b n.
  - destruct b, n; reflexivity.
  - simpl in H. apply orb_false_elim in H as [Hx Hs].
    destruct b as [|b]; destruct n as [|n]; simpl; auto.
    rewrite Hx. simpl. auto.
Qed.

Lemma any_false_all (p : ascii -> bool) (s : string) :
  any p s = false -> all (fun c => negb (p c)) s = true.
Proof.
  induction s as [|x s IH]; simpl; [reflexivity|].
  intros H. apply orb_false_elim in H as [-> Hs]. simpl. auto.
Qed.

(** A string with a character satisfying [p] splits at the first one. *)
Lemma any_split (p : ascii -> bool) (s : string) :
  any p s = true ->
  exists a c t, s = a ++ String c t /\ any p a = false /\ p c = true.
Proof.
  induction s as [|x s IH]; simpl; [discriminate|].
  destruct (p x) eqn:Hx; simpl.
  - intros _. exists "", x, s. auto.
  - intros H. destruct (IH H) as (a & c & t & -> & Ha & Hc).
    exists (String x a), c, t. simpl. rewrite Hx. auto.
Qed.

Lemma has_lf_append (a b : string) :
  has_lf (a ++ b) = has_lf a || has_lf b.
Proof. apply any_append. Qed.

Lemma all_append (p : ascii -> bool) (a b : string) :
  all p (a ++ b) = all p a && all p b.
Proof.
  induction a as [|x a IH]; simpl; [reflexivity|].
  now rewrite IH, andb_assoc.
Qed.

Lemma length_append (a b : string) :
  String.length (a ++ b) = String.length a + String.length b.
Proof.
  induction a as [|x a IH]; simpl; [reflexivity | now rewrite IH].
Qed.

Lemma substring_prefix (a b : string) :
  substring 0 (String.length a) (a ++ b) = a.
Proof.
  induction a as [|x a IH]; simpl; [now destruct b | now rewrite IH].
Qed.

Lemma substring_skip (a b : string) (n m : nat) :
  substring (String.length a + n) m (a ++ b) = substring n m b.
Proof.
  induction a as [|x a IH]; simpl; [reflexivity | exact IH].
Qed.

Lemma substring_middle (a b c : string) :
  substring (String.length a) (String.length b) (a ++ b ++ c) = b.
Proof.
  rewrite <- (Nat.add_0_r (String.length a)), substring_skip.
  apply substring_prefix.
Qed.

Lemma last_char_append (a b : string) :
  b <> "" -> last_char (a ++ b) = last_char b.
Proof.
  intros Hb. induction a as [|x a IH]; simpl; [reflexivity|].
  rewrite IH. destruct (a ++ b) eqn:E; [|reflexivity].
  destruct a; simpl in E; [contradiction | discriminate].
Qed.

Lemma last_char_append_r (a b : string) (c : ascii) :
  last_char b = Some c -> last_char (a ++ b) = Some c.
Proof.
  intros Hb. rewrite last_char_append; [exact Hb|].
  intros ->. discriminate.
Qed.

Lemma last_char_cons (s : string) :
  forall c, last_char (String c s) <> None.
Proof.
  induction s as [|x s IH]; intros c; [discriminate | exact (IH x)].
Qed.

Lemma all_last_char (p : ascii -> bool) (s : string) (c : ascii) :
  all p s = true -> last_char s = Some c -> p c = true.
Proof.
  induction s as [|x s IH]; simpl; [discriminate|].
  intros H. apply andb_prop in H as [Hx Hs].
  destruct s; [now intros [= <-] | auto].
Qed.

Lemma digits_no_lf (d : string) : all Re.is_digit d = true -> has_lf d = false.
Proof.
  unfold has_lf. induction d as [|x d IH]; simpl; [reflexivity|].
  intros H. apply andb_prop in H as [Hx Hd]. rewrite (IH Hd), orb_false_r.
  destruct (Ascii.eqb_spec x LF) as [->|]; [discriminate | reflexivity].
Qed.

(** A string splits into its longest prefix in [p] and the rest. *)
Lemma run_split (p : ascii -> bool) (s : string) :
  exists w r, s = w ++ r /\ all p w = true /\ head_is p r = false.
Proof.
  induction s as [|x s (w & r & -> & Hw & Hr)].
  - now exists "", "".
  - destruct (p x) eqn:Hx.
    + exists (String x w), r. simpl. now rewrite Hx, Hw.
    + exists "", (String x (w ++ r)). simpl. now rewrite Hx.
Qed.

(** A string splits into the digits it ends with and what is before. *)
Lemma digits_split (s : string) :
  exists t d, s = t ++ d /\ ends_in_digit t = false /\ all Re.is_digit d = true.
Proof.
  induction s as [|x s (t & d & -> & Ht & Hd)].
  - now exists "", "".
  - destruct t as [|y t].
    + destruct (Re.is_digit x) eqn:Hx.
      * exists "", (String x d). simpl. now rewrite Hx, Hd.
      * exists (String x ""), d. unfold ends_in_digit. simpl. now rewrite Hx.
    + exists (String x (String y t)), d. auto.
Qed.

Lemma ends_in_digit_append (a d : string) :
  d <> "" -> all Re.is_digit d = true -> ends_in_digit (a ++ d) = true.
Proof.
  intros Hne Hd. unfold ends_in_digit. rewrite last_char_append by exact Hne.
  destruct (last_char d) as [c|] eqn:Hc.
  - exact (all_last_char _ _ _ Hd Hc).
  - destruct d; [contradiction | now apply last_char_cons in Hc].
Qed.

Lemma space_not_digit (c : ascii) :
  Re.is_space c = true -> Re.is_digit c = false.
Proof.
  unfold Re.is_space, Re.is_digit. generalize (nat_of_ascii c). intros n H.
  apply andb_false_iff. rewrite !Nat.leb_gt.
  repeat (apply orb_prop in H as [H|H]);
    try (apply andb_prop in H as [H H']; apply Nat.leb_le in H, H');
    try apply Nat.eqb_eq in H; lia.
Qed.

Lemma spaces_no_lf (n : nat) : has_lf (spaces n) = false.
Proof. induction n; simpl; auto. Qed.

Lemma fmt_d_no_lf (n : nat) : has_lf (fmt_d n) = false.
Proof.
  unfold fmt_d.
  assert (H : forall u, has_lf (NilEmpty.string_of_uint u) = false)
    by (induction u; simpl; auto).
  destruct (Nat.to_uint n); simpl; auto; apply H.
Qed.

Lemma fmt_3d_no_lf (n : nat) : has_lf (fmt_3d n) = false.
Proof.
  unfold fmt_3d. now rewrite has_lf_append, spaces_no_lf, fmt_d_no_lf.
Qed.

Lemma lines_cons (l rest : string) :
  has_lf l = false -> lines (l ++ String LF rest) = l :: lines rest.
Proof.
  induction l as [|x l IH]; simpl; intros H.
  - reflexivity.
  - apply orb_false_elim in H as [Hx Hl]. rewrite Hx, (IH Hl). reflexivity.
Qed.

Lemma lines_unlines (ls : list string) :
  Forall (fun l => has_lf l = false) ls -> lines (unlines ls) = ls.
Proof.
  induction 1 as [|l ls Hl _ IH]; simpl; [reflexivity|].
  now rewrite lines_cons, IH.
Qed.

Lemma count_lf_append (a b : string) :
  count_lf (a ++ b) = count_lf a + count_lf b.
Proof.
  induction a as [|x a IH]; simpl; [reflexivity | rewrite IH; lia].
Qed.

Lemma count_lf_none (l : string) : has_lf l = false -> count_lf l = 0.
Proof.
  induction l as [|x l IH]; simpl; [reflexivity|].
  intros H. apply orb_false_elim in H as [-> Hl]. simpl. auto.
Qed.

Lemma count_lf_unlines (ls : list string) :
  Forall (fun l => has_lf l = false) ls ->
  count_lf (unlines ls) = List.length ls.
Proof.
  induction 1 as [|l ls Hl _ IH]; simpl; [reflexivity|].
  rewrite count_lf_append, (count_lf_none _ Hl). simpl. now rewrite IH.
Qed.

Lemma unlines_cons (l : string) (ls : list string) :
  unlines (l :: ls) = l ++ String LF (unlines ls).
Proof. reflexivity. Qed.

Lemma unlines_app (xs ys : list string) :
  unlines (xs ++ ys)%list = unlines xs ++ unlines ys.
Proof.
  induction xs as [|x xs IH]; simpl; [reflexivity|].
  now rewrite IH, append_assoc.
Qed.

(** ** Facts about the matcher *)

Module ReFacts.
Import Re.

Section Repeat.
Variable cs : charset.
Variable k : cont.

Lemma star_lazy_unfold (pos : nat) (s : string) (g : spans) :
  star_lazy cs k pos s g =
  match k pos s g with
  | Some r => Some r
  | None =>
      match s with
      | String c s' =>
          if mem cs c then star_lazy cs k (S pos) s' g else None
      | EmptyString => None
      end
  end.
Proof. destruct s; reflexivity. Qed.

(** A lazy repetition succeeds as soon as the continuation succeeds
    after some prefix of class characters. *)
Lemma star_lazy_reaches (a t : string) :
  all (mem cs) a = true ->
  forall pos g,
    k (pos + String.length a) t g <> None ->
    star_lazy cs k pos (a ++ t) g <> None.
Proof.
  induction a as [|c a IH]; intros Ha pos g Hk; rewrite star_lazy_unfold.
  - simpl in *. rewrite Nat.add_0_r in Hk.
    destruct (k pos t g); [discriminate | contradiction].
  - simpl in Ha. apply andb_prop in Ha as [Hc Ha].
    destruct (k pos (String c a ++ t) g); [discriminate|].
    simpl. rewrite Hc. apply (IH Ha).
    simpl in Hk. now rewrite Nat.add_succ_r in Hk.
Qed.

(** It fails when the continuation fails at every offset. *)
Lemma star_lazy_fails (s : string) :
  forall pos g,
    (forall a t, s = a ++ t -> k (pos + String.length a) t g = None) ->
    star_lazy cs k pos s g = None.
Proof.
  induction s as [|c s IH]; intros pos g Hk; rewrite star_lazy_unfold.
  - specialize (Hk "" "" eq_refl). simpl in Hk.
    rewrite Nat.add_0_r in Hk. now rewrite Hk.
  - pose proof (Hk "" (String c s) eq_refl) as H0. simpl in H0.
    rewrite Nat.add_0_r in H0. rewrite H0.
    destruct (mem cs c); [|reflexivity].
    apply IH. intros a t ->.
    specialize (Hk (String c a) t eq_refl). simpl in Hk.
    now rewrite Nat.add_succ_r in Hk.
Qed.

(** A greedy repetition never does worse than taking nothing. *)
Lemma star_greedy_falls_back (s : string) (pos : nat) (g : spans) :
  k pos s g <> None -> star_greedy cs k pos s g <> None.
Proof.
  intros Hk. destruct s as [|c s]; simpl; [exact Hk|].
  destruct (mem cs c); [|exact Hk].
  destruct (star_greedy cs k (S pos) s g); [discriminate | exact Hk].
Qed.
(** The lazy repetition stops at the first offset where the
    continuation succeeds. *)
Lemma star_lazy_first (a t : string) :
  all (mem cs) a = true ->
  forall pos g r,
    (forall a1 c a2,
        a = a1 ++ String c a2 ->
        k (pos + String.length a1) (String c a2 ++ t) g = None) ->
    k (pos + String.length a) t g = Some r ->
    star_lazy cs k pos (a ++ t) g = Some r.
Proof.
  induction a as [|c a IH]; intros Ha pos g r Hnone Hk;
    rewrite star_lazy_unfold.
  - simpl in *. rewrite Nat.add_0_r in Hk. now rewrite Hk.
  - simpl in Ha. apply andb_prop in Ha as [Hc Ha].
    pose proof (Hnone "" c a eq_refl) as H0. simpl in H0.
    rewrite Nat.add_0_r in H0. simpl. rewrite H0, Hc.
    apply (IH Ha).
    + intros a1 c' a2 ->.
      specialize (Hnone (String c a1) c' a2 eq_refl). simpl in Hnone.
      now rewrite Nat.add_succ_r in Hnone.
    + simpl in Hk. now rewrite Nat.add_succ_r in Hk.
Qed.

(** The greedy repetition takes the whole run when the continuation
    succeeds after it. *)
Lemma star_greedy_longest (w u : string) :
  all (mem cs) w = true ->
  head_is (mem cs) u = false ->
  forall pos g r,
    k (pos + String.length w) u g = Some r ->
    star_greedy cs k pos (w ++ u) g = Some r.
Proof.
  intros Hw Hu. induction w as [|c w IH]; intros pos g r Hk; simpl in *.
  - rewrite Nat.add_0_r in Hk. destruct u as [|x u]; [exact Hk|].
    simpl in Hu. simpl. now rewrite Hu.
  - apply andb_prop in Hw as [Hc Hw]. rewrite Hc.
    rewrite Nat.add_succ_r in Hk. now rewrite (IH Hw (S pos) g r Hk).
Qed.

(** It fails on a line that leaves the class before its end, when the
    continuation accepts nothing but the end of the line. *)
Lemma star_greedy_stuck (x : string) :
  has_lf x = false ->
  all (mem cs) x = false ->
  forall pos g,
    (forall p y, y <> "" -> has_lf y = false -> k p y g = None) ->
    star_greedy cs k pos x g = None.
Proof.
  induction x as [|c x IH]; intros Hlf Hx pos g Hk; simpl in *;
    [discriminate|].
  unfold has_lf in Hlf. simpl in Hlf.
  apply orb_false_elim in Hlf as [Hc Hlf].
  assert (Hhere : k pos (String c x) g = None).
  { apply Hk; [discriminate|]. unfold has_lf. simpl. now rewrite Hc. }
  destruct (mem cs c); [|exact Hhere].
  simpl in Hx. now rewrite (IH Hlf Hx (S pos) g Hk).
Qed.
Lemma star_greedy_all (w : string) :
  all (mem cs) w = true ->
  forall pos g r,
    k (pos + String.length w) "" g = Some r ->
    star_greedy cs k pos w g = Some r.
Proof.
  intros Hw pos g r Hk. rewrite <- (append_empty_r w) at 1.
  now apply star_greedy_longest.
Qed.
End Repeat.

(** The equations of [exec], one per construct. *)
Section Equations.
Variables (k : cont) (pos : nat) (s : string) (g : spans).

Lemma exec_Seq (r1 r2 : regex) :
  exec (Seq r1 r2) k pos s g = exec r1 (exec r2 k) pos s g.
Proof. reflexivity. Qed.

Lemma exec_Group (n : nat) (r : regex) :
  exec (Group n r) k pos s g =
  exec r (fun pos' s' g' => k pos' s' ((n, (pos, pos')) :: g')) pos s g.
Proof. reflexivity. Qed.

Lemma exec_Opt (r : regex) :
  exec (Opt r) k pos s g =
  match exec r k pos s g with
  | Some res => Some res
  | None => k pos s g
  end.
Proof. reflexivity. Qed.

Lemma exec_Star_lazy (cs : charset) :
  exec (Star false cs) k pos s g = star_lazy cs k pos s g.
Proof. reflexivity. Qed.

Lemma exec_Plus_greedy (cs : charset) :
  exec (Plus true cs) k pos s g =
  match s with
  | String c s' => if mem cs c then star_greedy cs k (S pos) s' g else None
  | EmptyString => None
  end.
Proof. reflexivity. Qed.

(** [$] refuses to match in the middle of a line. *)
Lemma exec_Eol_inside :
  s <> "" -> has_lf s = false -> exec Eol k pos s g = None.
Proof.
  intros Hs Hlf. destruct s as [|c [|c' s']]; simpl;
    [contradiction | | reflexivity].
  unfold has_lf in Hlf. simpl in Hlf. rewrite orb_false_r in Hlf.
  now rewrite Hlf.
Qed.
End Equations.

(** [^] pins the match to offset 0: later offsets of [search] fail. *)
Lemma search_from_anchored (r : regex) (subject s : string) (pos : nat) :
  search_from (Seq Bol r) subject (S pos) s = None.
Proof.
  revert pos. induction s as [|c s IH]; intros pos; simpl; auto.
Qed.

Lemma search_anchored (r : regex) (s : string) :
  search (Seq Bol r) s =
  match exec r accept 0 s [] with
  | Some (e, g) => Some (mkMatch s 0 e g)
  | None => None
  end.
Proof.
  unfold search. destruct s as [|c s]; simpl.
  - now destruct (exec r accept 0 "" []) as [[e g]|].
  - destruct (exec r accept 0 (String c s) []) as [[e g]|]; [reflexivity|].
    apply search_from_anchored.
Qed.

End ReFacts.

(** ** Facts about [RE_LINE] *)

(** A line with white space and no line feed matches. *)
Lemma RE_LINE_accepts (s : string) :
  has_space s = true -> has_lf s = false -> Re.search RE_LINE s <> None.
Proof.
  intros Hsp Hlf. unfold RE_LINE. rewrite ReFacts.search_anchored.
  match goal with
  | |- match ?e with _ => _ end <> None =>
      enough (H : e <> None) by (destruct e as [[? ?]|]; [discriminate | contradiction])
  end.
  destruct (any_split _ _ Hsp) as (a & c & t & -> & Ha & Hc).
  unfold has_lf in Hlf. rewrite any_append in Hlf.
  apply orb_false_elim in Hlf as [Hla Hlt]. simpl in Hlt.
  apply orb_false_elim in Hlt as [_ Hlt].
  cbn [Re.exec Re.star].
  apply ReFacts.star_lazy_reaches; [now apply any_false_all|].
  cbn [Re.plus Re.mem Re.star]. rewrite Hc.
  apply ReFacts.star_greedy_falls_back.
  rewrite <- (append_empty_r t).
  apply ReFacts.star_lazy_reaches; [now apply any_false_all|].
  cbn. discriminate.
Qed.

(** A line without white space does not. *)
Lemma RE_LINE_rejects (s : string) :
  has_space s = false -> Re.search RE_LINE s = None.
Proof.
  intros Hsp. unfold RE_LINE. rewrite ReFacts.search_anchored.
  match goal with
  | |- match ?e with _ => _ end = None => enough (H : e = None) by now rewrite H
  end.
  cbn [Re.exec Re.star].
  apply ReFacts.star_lazy_fails. intros a t ->.
  unfold has_space in Hsp. rewrite any_append in Hsp.
  apply orb_false_elim in Hsp as [_ Ht].
  destruct t as [|c t]; cbn [Re.plus]; [reflexivity|].
  simpl in Ht. apply orb_false_elim in Ht as [Hc _].
  cbn [Re.mem]. now rewrite Hc.
Qed.

Lemma search_RE_LINE_subject (s : string) (m : Re.Match) :
  Re.search RE_LINE s = Some m -> Re.m_string m = s.
Proof.
  unfold RE_LINE. rewrite ReFacts.search_anchored.
  destruct (Re.exec _ Re.accept 0 s []) as [[e g]|]; [|discriminate].
  now intros [= <-].
Qed.

Lemma group_no_lf (m : Re.Match) (n : nat) :
  has_lf (Re.m_string m) = false -> has_lf (fmt_s (Re.group m n)) = false.
Proof.
  intros H. unfold Re.group.
  destruct n as [|n]; simpl; [now apply any_substring|].
  destruct (Re.span_of (S n) (Re.m_spans m)) as [[b e]|]; simpl;
    [now apply any_substring | reflexivity].
Qed.

(** ** Facts about the script *)

Lemma emit_row_prints (i : nat) (line text out : string) :
  row_text i line = Some text ->
  emit_row i line out = (inl tt, out ++ text ++ String LF "").
Proof.
  unfold row_text, emit_row. destruct (Re.search RE_LINE line) as [m|];
    [|discriminate].
  now intros [= <-].
Qed.

Lemma emit_row_raises (i : nat) (line out : string) :
  row_text i line = None -> emit_row i line out = (inr AttributeError, out).
Proof.
  unfold row_text, emit_row. now destruct (Re.search RE_LINE line).
Qed.

Lemma row_text_no_lf (i : nat) (line text : string) :
  has_lf line = false -> row_text i line = Some text -> has_lf text = false.
Proof.
  intros Hlf. unfold row_text.
  destruct (Re.search RE_LINE line) as [m|] eqn:Hm; [|discriminate].
  intros [= <-]. apply search_RE_LINE_subject in Hm.
  rewrite <- Hm in Hlf.
  pose proof (group_no_lf m 1 Hlf) as H1.
  pose proof (group_no_lf m 2 Hlf) as H2.
  pose proof (fmt_3d_no_lf i) as H3.
  unfold fmt_row. rewrite !has_lf_append.
  fold (Re.group m 1) (Re.group m 2). rewrite H1, H2, H3. reflexivity.
Qed.

Lemma for_enumerate_prints (rows : list string) :
  forall i ls out,
    row_texts i rows = Some ls ->
    for_enumerate emit_row i rows out = (inl tt, out ++ unlines ls).
Proof.
  induction rows as [|line rows IH]; intros i ls out; simpl.
  - intros [= <-]. simpl. now rewrite append_empty_r.
  - destruct (row_text i line) as [l|] eqn:Hl; [|discriminate].
    destruct (row_texts (S i) rows) as [ls'|] eqn:Hls; [|discriminate].
    intros [= <-]. unfold bind. rewrite (emit_row_prints _ _ _ out Hl).
    rewrite (IH _ _ _ Hls). simpl. now rewrite !append_assoc.
Qed.

Lemma row_texts_nth (rows : list string) :
  forall i ls,
    row_texts i rows = Some ls ->
    List.length ls = List.length rows /\
    forall j line, nth_error rows j = Some line ->
                   nth_error ls j = row_text (i + j) line.
Proof.
  induction rows as [|line rows IH]; intros i ls; simpl.
  - intros [= <-]. split; [reflexivity|]. intros [|j] ?; discriminate.
  - destruct (row_text i line) as [l|] eqn:Hl; [|discriminate].
    destruct (row_texts (S i) rows) as [ls'|] eqn:Hls; [|discriminate].
    intros [= <-]. destruct (IH _ _ Hls) as [Hlen Hnth]. split.
    + simpl. now rewrite Hlen.
    + intros [|j] row; simpl.
      * intros [= <-]. now rewrite Nat.add_0_r.
      * intros Hj. rewrite (Hnth _ _ Hj). now rewrite Nat.add_succ_r.
Qed.

Lemma row_texts_no_lf (rows : list string) :
  Forall (fun r => has_lf r = false) rows ->
  forall i ls, row_texts i rows = Some ls ->
               Forall (fun l => has_lf l = false) ls.
Proof.
  induction 1 as [|line rows Hline _ IH]; intros i ls; simpl.
  - intros [= <-]. constructor.
  - destruct (row_text i line) as [l|] eqn:Hl; [|discriminate].
    destruct (row_texts (S i) rows) as [ls'|] eqn:Hls; [|discriminate].
    intros [= <-]. constructor; [exact (row_text_no_lf _ _ _ Hline Hl) | eauto].
Qed.

Lemma row_texts_defined (rows : list string) :
  Forall (fun r => Re.search RE_LINE r <> None) rows ->
  forall i, exists ls, row_texts i rows = Some ls.
Proof.
  induction 1 as [|line rows Hline _ IH]; intros i; simpl.
  - now exists [].
  - unfold row_text. destruct (Re.search RE_LINE line) as [m|];
      [|contradiction].
    destruct (IH (S i)) as [ls ->]. eauto.
Qed.

(** The script on any table whose rows all match. *)
Section Table.
Variable rows : list string.
Variable texts : list string.
Hypothesis rows_match : row_texts 0 rows = Some texts.

Lemma script_prints :
  script rows "" =
  (inl tt, unlines (count_line rows :: HEADER :: texts ++ [FOOTER])%list).
Proof.
  unfold script, bind, print. cbv beta iota.
  rewrite (for_enumerate_prints _ _ _ _ rows_match). cbv beta iota.
  rewrite !unlines_cons, unlines_app, !append_assoc. reflexivity.
Qed.

Hypothesis rows_one_line : Forall (fun r => has_lf r = false) rows.

Lemma script_lines_no_lf :
  Forall (fun l => has_lf l = false)
    (count_line rows :: HEADER :: texts ++ [FOOTER])%list.
Proof.
  constructor.
  - unfold count_line. now rewrite has_lf_append, fmt_d_no_lf.
  - constructor; [reflexivity|].
    apply Forall_app. split.
    + exact (row_texts_no_lf _ rows_one_line _ _ rows_match).
    + now constructor.
Qed.

Lemma script_lines :
  lines (stdout (script rows "")) =
  (count_line rows :: HEADER :: texts ++ [FOOTER])%list.
Proof.
  rewrite script_prints. unfold stdout. cbn [snd].
  apply lines_unlines, script_lines_no_lf.
Qed.
End Table.

(** ** The split [RE_LINE] computes *)

Section Split.
Import Re.

(** What is left of the pattern after the name, and after the separator. *)
Local Notation "'PAGE_EOL'" :=
  (Seq (Opt (Group 3 (Plus true Digit))) Eol).
Local Notation "'TEXT_ON'" := (Seq (Group 2 (Star false Any)) PAGE_EOL).
Local Notation "'SEP_ON'" := (Seq (Plus true Space) TEXT_ON).

(** On digits up to the end of the line the page group takes them all;
    on the end of the line it stays out. *)
Lemma page_eol_digits (d : string) (p : nat) (g : spans) :
  all is_digit d = true ->
  exec PAGE_EOL accept p d g = Some (p + String.length d, page_span p d ++ g)%list.
Proof.
  intros Hd. rewrite ReFacts.exec_Seq, ReFacts.exec_Opt, ReFacts.exec_Group.
  rewrite ReFacts.exec_Plus_greedy. destruct d as [|c d].
  - simpl. now rewrite Nat.add_0_r.
  - simpl in Hd. apply andb_prop in Hd as [Hc Hd]. cbn [mem]. rewrite Hc.
    erewrite ReFacts.star_greedy_all; [| exact Hd | reflexivity].
    simpl. now rewrite !Nat.add_succ_r.
Qed.

(** Anywhere else it fails. *)
Lemma page_eol_rejects (u : string) (p : nat) (g : spans) :
  u <> "" -> has_lf u = false -> all is_digit u = false ->
  exec PAGE_EOL accept p u g = None.
Proof.
  intros Hu Hlf Hall.
  rewrite ReFacts.exec_Seq, ReFacts.exec_Opt, ReFacts.exec_Group.
  rewrite ReFacts.exec_Plus_greedy.
  rewrite (ReFacts.exec_Eol_inside _ _ _ _ Hu Hlf).
  destruct u as [|c u]; [reflexivity|].
  cbn [mem]. destruct (is_digit c) eqn:Hc; [|reflexivity].
  simpl in Hall. rewrite Hc in Hall. simpl in Hall.
  unfold has_lf in Hlf. simpl in Hlf. apply orb_false_elim in Hlf as [_ Hlf].
  rewrite ReFacts.star_greedy_stuck; auto.
  intros q y Hy Hly. now apply ReFacts.exec_Eol_inside.
Qed.

Lemma text_on (t d : string) (p : nat) (g : spans) :
  has_lf t = false -> ends_in_digit t = false -> all is_digit d = true ->
  exec TEXT_ON accept p (t ++ d) g =
  Some (p + String.length t + String.length d,
        page_span (p + String.length t) d ++ (2, (p, p + String.length t)) :: g)%list.
Proof.
  intros Hlf Hend Hd.
  rewrite ReFacts.exec_Seq, ReFacts.exec_Group, ReFacts.exec_Star_lazy.
  apply ReFacts.star_lazy_first.
  - now apply any_false_all.
  - intros a1 c a2 ->. apply page_eol_rejects.
    + simpl. discriminate.
    + rewrite has_lf_append in Hlf. apply orb_false_elim in Hlf as [_ Hlf].
      now rewrite has_lf_append, Hlf, digits_no_lf.
    + rewrite all_append. apply andb_false_intro1.
      destruct (all is_digit (String c a2)) eqn:Hall; [|reflexivity].
      unfold ends_in_digit in Hend.
      rewrite last_char_append in Hend by discriminate.
      destruct (last_char (String c a2)) as [x|] eqn:Hx.
      * now rewrite (all_last_char _ _ _ Hall Hx) in Hend.
      * now apply last_char_cons in Hx.
  - apply page_eol_digits. exact Hd.
Qed.

Lemma sep_on (w t d : string) (p : nat) (g : spans) :
  w <> "" -> all is_space w = true ->
  head_is is_space (t ++ d) = false ->
  has_lf t = false -> ends_in_digit t = false -> all is_digit d = true ->
  exec SEP_ON accept p (w ++ t ++ d) g =
  Some (p + String.length w + String.length t + String.length d,
        page_span (p + String.length w + String.length t) d
        ++ (2, (p + String.length w, p + String.length w + String.length t))
        :: g)%list.
Proof.
  intros Hw Hsp Hhead Hlf Hend Hd. destruct w as [|c w]; [contradiction|].
  simpl in Hsp. apply andb_prop in Hsp as [Hc Hsp].
  rewrite ReFacts.exec_Seq, ReFacts.exec_Plus_greedy.
  cbn [append mem String.length]. rewrite Hc, !Nat.add_succ_r.
  apply ReFacts.star_greedy_longest; [exact Hsp | exact Hhead |].
  now apply text_on.
Qed.

(** The match on a line made of a name without white space, a
    separator, a text and the digits the line ends with. *)
Lemma RE_LINE_split (a w t d : string) :
  has_space a = false -> has_lf a = false ->
  w <> "" -> all is_space w = true ->
  head_is is_space (t ++ d) = false ->
  has_lf t = false -> ends_in_digit t = false -> all is_digit d = true ->
  let p1 := String.length a + String.length w in
  let p2 := p1 + String.length t in
  search RE_LINE (a ++ w ++ t ++ d) =
  Some (mkMatch (a ++ w ++ t ++ d) 0 (p2 + String.length d)
          (page_span p2 d ++ [(2, (p1, p2)); (1, (0, String.length a))])%list).
Proof.
  intros Hsa Hla Hw Hsp Hhead Hlf Hend Hd p1 p2. unfold RE_LINE.
  rewrite ReFacts.search_anchored.
  match goal with
  | |- context [exec ?r accept 0 ?s []] =>
      enough (E : exec r accept 0 s [] =
                  Some (p2 + String.length d,
                        page_span p2 d
                        ++ [(2, (p1, p2)); (1, (0, String.length a))])%list)
        by now rewrite E
  end.
  rewrite ReFacts.exec_Seq, ReFacts.exec_Group, ReFacts.exec_Star_lazy.
  apply ReFacts.star_lazy_first.
  - now apply any_false_all.
  - intros a1 c a2 ->. rewrite ReFacts.exec_Seq, ReFacts.exec_Plus_greedy.
    unfold has_space in Hsa. rewrite any_append in Hsa.
    apply orb_false_elim in Hsa as [_ Hsa]. simpl in Hsa.
    apply orb_false_elim in Hsa as [Hc _].
    cbn [append mem]. now rewrite Hc.
  - cbv beta. rewrite sep_on by assumption. reflexivity.
Qed.

(** The groups of that match. *)
Lemma RE_LINE_groups (a w t d : string) :
  has_space a = false -> has_lf a = false ->
  w <> "" -> all is_space w = true ->
  head_is is_space (t ++ d) = false ->
  has_lf t = false -> ends_in_digit t = false -> all is_digit d = true ->
  exists m,
    search RE_LINE (a ++ w ++ t ++ d) = Some m /\
    group m 1 = Some a /\
    group m 2 = Some t /\
    group m 3 = match d with EmptyString => None | String _ _ => Some d end.
Proof.
  intros Hsa Hla Hw Hsp Hhead Hlf Hend Hd.
  eexists. split; [now apply RE_LINE_split|].
  unfold group. cbn [m_spans m_string m_start m_end].
  repeat split.
  - assert (E : span_of 1 (page_span (String.length a + String.length w
                                        + String.length t) d
                             ++ [(2, (String.length a + String.length w,
                                      String.length a + String.length w
                                      + String.length t));
                                 (1, (0, String.length a))])%list
                = Some (0, String.length a)) by now destruct d.
    rewrite E, Nat.sub_0_r. now rewrite substring_prefix.
  - assert (E : span_of 2 (page_span (String.length a + String.length w
                                        + String.length t) d
                             ++ [(2, (String.length a + String.length w,
                                      String.length a + String.length w
                                      + String.length t));
                                 (1, (0, String.length a))])%list
                = Some (String.length a + String.length w,
                        String.length a + String.length w
                        + String.length t)) by now destruct d.
    rewrite E.
    replace (String.length a + String.length w + String.length t
             - (String.length a + String.length w))
      with (String.length t) by lia.
    rewrite <- length_append, <- (append_assoc a w).
    now rewrite substring_middle.
  - destruct d as [|c d]; [reflexivity|].
    cbn [page_span app span_of Nat.eqb].
    remember (String c d) as page eqn:Hpage.
    replace (String.length a + String.length w + String.length t
             + String.length page
             - (String.length a + String.length w + String.length t))
      with (String.length page) by lia.
    replace (a ++ w ++ t ++ page) with (((a ++ w) ++ t) ++ page ++ "")
      by now rewrite append_empty_r, !append_assoc.
    rewrite <- !length_append, substring_middle.
    now rewrite Hpage.
Qed.

(** Every line with white space and no line feed has that shape, so
    its match is known. *)
Lemma RE_LINE_parses (s : string) :
  has_space s = true -> has_lf s = false ->
  exists m a w t d,
    s = a ++ w ++ t ++ d /\
    search RE_LINE s = Some m /\
    group m 1 = Some a /\
    group m 2 = Some t /\
    group m 3 = match d with EmptyString => None | String _ _ => Some d end /\
    has_space a = false /\
    (w <> "" /\ all is_space w = true) /\
    head_is is_space (t ++ d) = false /\
    ends_in_digit t = false /\
    all is_digit d = true.
Proof.
  intros Hsp Hlf.
  destruct (any_split _ _ Hsp) as (a & c & rest & -> & Ha & Hc).
  destruct (run_split is_space rest) as (w & r & -> & Hw & Hr).
  destruct (digits_split r) as (t & d & -> & Ht & Hd).
  rewrite !has_lf_append in Hlf.
  apply orb_false_elim in Hlf as [Hla Hlf].
  change (String c (w ++ t ++ d)) with (String c w ++ t ++ d) in *.
  rewrite !has_lf_append in Hlf.
  apply orb_false_elim in Hlf as [_ Hlf].
  apply orb_false_elim in Hlf as [Hlt _].
  assert (Hw' : all is_space (String c w) = true) by (simpl; now rewrite Hc).
  assert (Hne : String c w <> "") by discriminate.
  destruct (RE_LINE_groups a (String c w) t d) as (m & Hm & H1 & H2 & H3);
    auto.
  exists m, a, (String c w), t, d. repeat split; auto.
Qed.
End Split.

(** A line that does not end in a digit has no page group. *)
Lemma RE_LINE_no_page (s : string) :
  has_space s = true -> has_lf s = false -> ends_in_digit s = false ->
  exists m, Re.search RE_LINE s = Some m /\ Re.group m 3 = None.
Proof.
  intros Hsp Hlf Hend.
  destruct (RE_LINE_parses s Hsp Hlf)
    as (m & a & w & t & d & -> & Hm & _ & _ & H3 & _ & _ & _ & _ & Hd).
  exists m. split; [exact Hm|]. rewrite H3.
  destruct d as [|c d]; [reflexivity|].
  rewrite <- !append_assoc, ends_in_digit_append in Hend;
    [discriminate | discriminate | exact Hd].
Qed.

(** A line that ends in a digit has one, and the text stops before it. *)
Lemma RE_LINE_page (s : string) :
  has_space s = true -> has_lf s = false -> ends_in_digit s = true ->
  exists m text page,
    Re.search RE_LINE s = Some m /\
    Re.group m 2 = Some text /\ Re.group m 3 = Some page /\
    ends_in_digit text = false /\ page <> "" /\ all Re.is_digit page = true.
Proof.
  intros Hsp Hlf Hend.
  destruct (RE_LINE_parses s Hsp Hlf)
    as (m & a & w & t & d & -> & Hm & _ & H2 & H3 & Ha & [Hne Hw] & Hh & Ht & Hd).
  destruct d as [|c d].
  - exfalso. rewrite append_empty_r in *.
    destruct t as [|x t].
    + rewrite append_empty_r in Hend.
      assert (E : ends_in_digit (a ++ w) = false).
      { unfold ends_in_digit. rewrite last_char_append by exact Hne.
        destruct (last_char w) as [y|] eqn:Hy; [|reflexivity].
        apply space_not_digit. exact (all_last_char _ _ _ Hw Hy). }
      congruence.
    + rewrite <- !append_assoc in Hend. unfold ends_in_digit in Hend, Ht.
      rewrite last_char_append in Hend by discriminate. congruence.
  - exists m, t, (String c d). repeat split; auto. discriminate.
Qed.

(** ** Facts about the table *)

Lemma adobe_lines_spaced : Forall (fun r => has_space r = true) adobe_lines.
Proof.
  apply Forall_forall, forallb_forall. vm_compute. reflexivity.
Qed.

Lemma adobe_lines_one_line : Forall (fun r => has_lf r = false) adobe_lines.
Proof.
  apply Forall_forall. intros r Hr. apply negb_true_iff. revert r Hr.
  apply forallb_forall. vm_compute. reflexivity.
Qed.

Lemma adobe_lines_match :
  Forall (fun r => Re.search RE_LINE r <> None) adobe_lines.
Proof.
  pose proof adobe_lines_spaced as Hs. pose proof adobe_lines_one_line as Hl.
  rewrite Forall_forall in *. intros r Hr.
  apply RE_LINE_accepts; auto.
Qed.

Lemma nth_error_adobe_lines (i : nat) (row : string) :
  nth_error adobe_lines i = Some row ->
  has_space row = true /\ has_lf row = false.
Proof.
  intros H. apply nth_error_In in H.
  pose proof adobe_lines_spaced as Hs. pose proof adobe_lines_one_line as Hl.
  rewrite Forall_forall in *. auto.
Qed.

(** The run of the module: it finishes, and standard output holds the
    count line, the header, one text per row in table order and the
    footer. *)
Lemma main_lines :
  exists texts,
    row_texts 0 adobe_lines = Some texts /\
    main = (inl tt,
            unlines (count_line adobe_lines :: HEADER :: texts ++ [FOOTER])%list) /\
    lines (stdout main) =
    (count_line adobe_lines :: HEADER :: texts ++ [FOOTER])%list.
Proof.
  destruct (row_texts_defined _ adobe_lines_match 0) as [texts Ht].
  exists texts. split; [exact Ht|]. split.
  - exact (script_prints _ _ Ht).
  - exact (script_lines _ _ Ht adobe_lines_one_line).
Qed.

Lemma main_row_line (i : nat) (row : string) :
  nth_error adobe_lines i = Some row ->
  nth_error (lines (stdout main)) (2 + i) = row_text i row.
Proof.
  intros Hrow. destruct main_lines as (texts & Ht & _ & ->).
  destruct (row_texts_nth _ _ _ Ht) as [Hlen Hnth]. simpl.
  rewrite nth_error_app1.
  - exact (Hnth _ _ Hrow).
  - rewrite Hlen. apply nth_error_Some. now rewrite Hrow.
Qed.

(** In the table, a text that is followed by a page number ends with the
    space that stood between them. *)
Lemma adobe_texts_end_in_space (row : string) :
  In row adobe_lines -> ends_in_digit row = true ->
  forall m text,
    Re.search RE_LINE row = Some m -> Re.group m 2 = Some text ->
    last_char text = Some " "%char.
Proof.
  intros Hin Hend m text Hm Ht.
  assert (H : forallb
                (fun r =>
                   implb (ends_in_digit r)
                     match Re.search RE_LINE r with
                     | Some m' =>
                         match Re.group m' 2 with
                         | Some t =>
                             match last_char t with
                             | Some c => Ascii.eqb c " "
                             | None => false
                             end
                         | None => false
                         end
                     | None => false
                     end) adobe_lines = true)
    by (vm_compute; reflexivity).
  rewrite forallb_forall in H. specialize (H row Hin).
  rewrite Hend, Hm, Ht in H. simpl in H.
  destruct (last_char text) as [c|]; [|discriminate].
  now apply Ascii.eqb_eq in H as ->.
Qed.

(** ** The claims *)

(** C1, counterexample: [RE_LINE] does not match every string.  The
    separator [\s+] needs a white-space character, so the empty string
    and a bare operator name such as [BT] are not matched. *)
Lemma RE_LINE_search_not_total :
  Re.search RE_LINE "" = None /\ Re.search RE_LINE "BT" = None.
Proof. split; reflexivity. Qed.

(** C1, as amended: on a string without a line feed, [RE_LINE] matches
    exactly when the string holds a white-space character; and a match
    may leave groups 1 and 2 empty and group 3 out, as on the string
    made of one space. *)
Theorem RE_LINE_search_spaced :
  (forall s,
      has_lf s = false ->
      (has_space s = true <-> exists m, Re.search RE_LINE s = Some m)) /\
  (exists m,
      Re.search RE_LINE " " = Some m /\
      Re.groups m = (Some "", Some "", None)).
Proof.
  split.
  - intros s Hlf. split.
    + intros Hsp. pose proof (RE_LINE_accepts s Hsp Hlf) as H.
      destruct (Re.search RE_LINE s) as [m|]; [now exists m | contradiction].
    + intros [m Hm]. destruct (has_space s) eqn:Hsp; [reflexivity|].
      rewrite (RE_LINE_rejects s Hsp) in Hm. discriminate.
  - eexists. split; reflexivity.
Qed.

Lemma RE_LINE_search_spaced_witness :
  exists m, Re.search RE_LINE "Tc Set character spacing" = Some m.
Proof.
  apply (proj1 RE_LINE_search_spaced "Tc Set character spacing");
    reflexivity.
Defined.

(** C2, counterexample: the row [m moveto Begin new subpath 59] is row 36
    of the table (row 41 is the row of [Q]), the line printed for it
    carries the index 36, begins with a tab and ends with the space
    that stood before the page number, and the line with index 41 of
    the claim is no line of the output. *)
Lemma moveto_row_index_is_36 :
  nth_error adobe_lines 36 = Some "m moveto Begin new subpath 59" /\
  nth_error adobe_lines 41 = Some "Q grestore Restore graphics state 57" /\
  row_text 36 "m moveto Begin new subpath 59"
  <> Some "`m`: false,  //  41: moveto Begin new subpath" /\
  ~ In "`m`: false,  //  41: moveto Begin new subpath" (lines (stdout main)).
Proof.
  repeat split; try reflexivity.
  - vm_compute. discriminate.
  - intros H. apply (In_nth_error (lines (stdout main))) in H as [n Hn].
    assert (Hlen : n < 76).
    { change 76 with (List.length (lines (stdout main))).
      apply nth_error_Some. now rewrite Hn. }
    revert Hn.
    do 76 (destruct n as [|n]; [vm_compute; discriminate|]).
    lia.
Qed.

(** C2, as amended: the row is row 36 of the table and of no other
    index, and the emitter prints for it exactly a tab, then
    [`m`: false,  //  36: moveto Begin new subpath] and one space. *)
Theorem moveto_line :
  forall i,
    nth_error adobe_lines i = Some "m moveto Begin new subpath 59" ->
    i = 36 /\
    (forall out,
        emit_row i "m moveto Begin new subpath 59" out =
        (inl tt,
         out ++ String TAB "`m`: false,  //  36: moveto Begin new subpath "
             ++ String LF "")) /\
    nth_error (lines (stdout main)) (2 + i) =
    Some (String TAB "`m`: false,  //  36: moveto Begin new subpath ").
Proof.
  intros i Hi.
  assert (E : i = 36).
  { assert (Hlen : i < 73).
    { change 73 with (List.length adobe_lines).
      apply nth_error_Some. now rewrite Hi. }
    revert Hi.
    do 73 (destruct i as [|i]; [try reflexivity; vm_compute; discriminate|]).
    lia. }
  subst i. split; [reflexivity|]. split.
  - intros out. now apply emit_row_prints.
  - rewrite (main_row_line _ _ Hi). reflexivity.
Qed.

Lemma moveto_line_witness :
  nth_error (lines (stdout main)) 38 =
  Some (String TAB "`m`: false,  //  36: moveto Begin new subpath ").
Proof.
  exact (proj2 (proj2 (moveto_line 36 eq_refl))).
Defined.

(** C3, counterexample: the line printed for row 0 is not the line the
    claim words.  It begins with a tab, not with the backtick, and it
    has a space after the first colon and after [//]. *)
Lemma first_row_line_not_as_worded :
  option_map Re.groups
    (Re.search RE_LINE
       "b closepath, fill, stroke Close, fill, and stroke path using nonzero winding number rule 60")
  = Some (Some "b",
          Some "closepath, fill, stroke Close, fill, and stroke path using nonzero winding number rule ",
          Some "60") /\
  nth_error (lines (stdout main)) 2 =
  Some (String TAB
          "`b`: false,  //   0: closepath, fill, stroke Close, fill, and stroke path using nonzero winding number rule ") /\
  nth_error (lines (stdout main)) 2 <>
  Some (spec_row_line "b" 0
          "closepath, fill, stroke Close, fill, and stroke path using nonzero winding number rule ").
Proof.
  repeat split; try reflexivity. vm_compute. discriminate.
Qed.

(** C3, as amended: for every row of the table the emitter prints one
    line: a tab, the name between backticks, a colon, a space,
    [false,], two spaces, [//], a space, the zero-based index of the
    row right-justified on three columns, a colon, a space and the
    text of group 2.  The row is the name, white space, the text and
    the digits of the page number, and the text does not end in a
    digit.  The line of row [i] is line [2 + i] of the output, so the
    rows come out in table order. *)
Theorem row_lines :
  forall i row,
    nth_error adobe_lines i = Some row ->
    exists m name sep text page,
      Re.search RE_LINE row = Some m /\
      Re.group m 1 = Some name /\ Re.group m 2 = Some text /\
      row = name ++ sep ++ text ++ page /\
      all Re.is_space sep = true /\ all Re.is_digit page = true /\
      ends_in_digit text = false /\
      let line :=
        String TAB "`" ++ name ++ "`: false,  // " ++ fmt_3d i ++ ": " ++ text
      in
      (forall out,
          emit_row i row out = (inl tt, out ++ line ++ String LF "")) /\
      has_lf line = false /\
      nth_error (lines (stdout main)) (2 + i) = Some line.
Proof.
  intros i row Hrow.
  destruct (nth_error_adobe_lines _ _ Hrow) as [Hsp Hlf].
  destruct (RE_LINE_parses row Hsp Hlf)
    as (m & a & w & t & d & E & Hm & H1 & H2 & _ & _ & [_ Hw] & _ & Ht & Hd).
  exists m, a, w, t, d.
  assert (Htext : row_text i row = Some (fmt_row (Some a) i (Some t)))
    by (unfold row_text; now rewrite Hm, H1, H2).
  repeat (split; [assumption|]). cbv zeta. repeat split.
  - intros out. now apply emit_row_prints.
  - exact (row_text_no_lf _ _ _ Hlf Htext).
  - now rewrite (main_row_line _ _ Hrow).
Qed.

Lemma row_lines_witness :
  exists m name sep text page,
    Re.search RE_LINE "Tc Set character spacing" = Some m /\
    Re.group m 1 = Some name /\ Re.group m 2 = Some text /\
    "Tc Set character spacing" = name ++ sep ++ text ++ page /\
    all Re.is_space sep = true /\ all Re.is_digit page = true /\
    ends_in_digit text = false /\
    let line :=
      String TAB "`" ++ name ++ "`: false,  // " ++ fmt_3d 54 ++ ": " ++ text
    in
    (forall out,
        emit_row 54 "Tc Set character spacing" out =
        (inl tt, out ++ line ++ String LF "")) /\
    has_lf line = false /\
    nth_error (lines (stdout main)) (2 + 54) = Some line.
Proof.
  apply (row_lines 54 "Tc Set character spacing"). reflexivity.
Defined.

(** C4: [RE_LINE] matches every row of the table, so [m.group] never
    raises on the shipped data. *)
Theorem adobe_lines_all_match :
  forall row,
    In row adobe_lines ->
    (exists m, Re.search RE_LINE row = Some m) /\
    forall n out,
    exists v, getattr_group (Re.search RE_LINE row) n out = (inl v, out).
Proof.
  intros row Hin. pose proof adobe_lines_match as H.
  rewrite Forall_forall in H. specialize (H row Hin).
  destruct (Re.search RE_LINE row) as [m|]; [|contradiction].
  split; [now exists m|]. intros n out. now exists (Re.group m n).
Qed.

Lemma adobe_lines_all_match_witness :
  (exists m, Re.search RE_LINE "BT Begin text object 107" = Some m) /\
  forall n out,
  exists v,
    getattr_group (Re.search RE_LINE "BT Begin text object 107") n out
    = (inl v, out).
Proof.
  apply (adobe_lines_all_match "BT Begin text object 107").
  do 7 right. left. reflexivity.
Defined.

(** C5: on the row of [b], the first of the table, group 3 is [60]. *)
Theorem closepath_row_page :
  nth_error adobe_lines 0 =
  Some "b closepath, fill, stroke Close, fill, and stroke path using nonzero winding number rule 60" /\
  exists m,
    Re.search RE_LINE
      "b closepath, fill, stroke Close, fill, and stroke path using nonzero winding number rule 60"
    = Some m /\
    Re.group m 3 = Some "60".
Proof.
  split; [reflexivity|]. eexists. split; reflexivity.
Qed.

(** C6: on a row of the table that does not end in a digit, such as
    [Tc Set character spacing], the match has no group 3. *)
Theorem rows_without_page_number :
  forall row,
    In row adobe_lines -> ends_in_digit row = false ->
    exists m, Re.search RE_LINE row = Some m /\ Re.group m 3 = None.
Proof.
  intros row Hin Hend. apply RE_LINE_no_page; [| | exact Hend].
  - pose proof adobe_lines_spaced as H. rewrite Forall_forall in H. auto.
  - pose proof adobe_lines_one_line as H. rewrite Forall_forall in H. auto.
Qed.

Lemma rows_without_page_number_witness :
  exists m,
    Re.search RE_LINE "Tc Set character spacing" = Some m /\
    Re.group m 3 = None.
Proof.
  apply (rows_without_page_number "Tc Set character spacing").
  - do 54 right. left. reflexivity.
  - reflexivity.
Defined.

(** C7, counterexample: the output has three lines more than the table
    has rows, not two: the count line comes before the header. *)
Lemma stdout_begins_with_count_line :
  nth_error (lines (stdout main)) 0 = Some "73 lines" /\
  count_lf (stdout main) <> List.length adobe_lines + 2 /\
  List.length (lines (stdout main)) <> List.length adobe_lines + 2.
Proof.
  repeat split; try reflexivity; vm_compute; discriminate.
Qed.

(** C7, as amended: the loop prints as many lines as the table has
    rows, and the output has that many lines plus 3: the count line,
    the header and the footer. *)
Theorem stdout_line_count :
  exists texts,
    row_texts 0 adobe_lines = Some texts /\
    List.length texts = List.length adobe_lines /\
    lines (stdout main) =
    (count_line adobe_lines :: HEADER :: texts ++ [FOOTER])%list /\
    List.length (lines (stdout main)) = List.length adobe_lines + 3 /\
    count_lf (stdout main) = List.length adobe_lines + 3.
Proof.
  destruct main_lines as (texts & Ht & Hmain & Hlines).
  destruct (row_texts_nth _ _ _ Ht) as [Hlen _].
  exists texts.
  split; [exact Ht|]. split; [exact Hlen|]. split; [exact Hlines|]. split.
  - rewrite Hlines. simpl. rewrite length_app, Hlen. simpl. lia.
  - rewrite Hmain. unfold stdout. cbn [snd].
    rewrite count_lf_unlines.
    + simpl. rewrite length_app, Hlen. simpl. lia.
    + exact (script_lines_no_lf _ _ Ht adobe_lines_one_line).
Qed.

(** C8: the module runs to its end without an exception, so the
    interpreter exits with status 0. *)
Theorem main_exits_0 : fst main = inl tt /\ exit_status main = 0.
Proof.
  destruct main_lines as (texts & _ & Hmain & _).
  unfold exit_status. now rewrite Hmain.
Qed.

(** C9: every row of the table holds a white-space character, and on
    such a row the body of the loop does not raise. *)
Theorem adobe_lines_have_space :
  forall row,
    In row adobe_lines ->
    has_space row = true /\
    forall i out, fst (emit_row i row out) = inl tt.
Proof.
  intros row Hin.
  pose proof adobe_lines_spaced as Hs. pose proof adobe_lines_match as Hm.
  rewrite Forall_forall in *. split; [auto|].
  intros i out. specialize (Hm row Hin).
  destruct (row_text i row) as [text|] eqn:Ht.
  - now rewrite (emit_row_prints _ _ _ out Ht).
  - unfold row_text in Ht. now destruct (Re.search RE_LINE row).
Qed.

Lemma adobe_lines_have_space_witness :
  has_space "Do Invoke named XObject 87" = true /\
  forall i out, fst (emit_row i "Do Invoke named XObject 87" out) = inl tt.
Proof.
  apply (adobe_lines_have_space "Do Invoke named XObject 87").
  do 16 right. left. reflexivity.
Defined.

(** C10: for a row of the table that ends in a page number, the text of
    group 2 ends with the space that stood before the page number, and
    so does the line printed for the row. *)
Theorem page_rows_keep_separator :
  forall i row,
    nth_error adobe_lines i = Some row -> ends_in_digit row = true ->
    exists m text page line,
      Re.search RE_LINE row = Some m /\
      Re.group m 2 = Some text /\ Re.group m 3 = Some page /\
      last_char text = Some " "%char /\
      nth_error (lines (stdout main)) (2 + i) = Some line /\
      last_char line = Some " "%char.
Proof.
  intros i row Hrow Hend.
  destruct (nth_error_adobe_lines _ _ Hrow) as [Hsp Hlf].
  destruct (RE_LINE_page row Hsp Hlf Hend)
    as (m & text & page & Hm & H2 & H3 & _).
  pose proof (adobe_texts_end_in_space row (nth_error_In _ _ Hrow) Hend
                m text Hm H2) as Hlast.
  exists m, text, page, (fmt_row (Re.group m 1) i (Some text)).
  repeat (split; [assumption|]). split.
  - rewrite (main_row_line _ _ Hrow). unfold row_text. now rewrite Hm, H2.
  - unfold fmt_row. cbn [fmt_s]. now repeat apply last_char_append_r.
Qed.

Lemma page_rows_keep_separator_witness :
  exists m text page line,
    Re.search RE_LINE "BI Begin inline image object 92" = Some m /\
    Re.group m 2 = Some text /\ Re.group m 3 = Some page /\
    last_char text = Some " "%char /\
    nth_error (lines (stdout main)) (2 + 5) = Some line /\
    last_char line = Some " "%char.
Proof.
  apply (page_rows_keep_separator 5 "BI Begin inline image object 92");
    reflexivity.
Defined.

(** ** What a match of [RE_LINE] looks like, on any string *)

Module ReSound.
Import Re.

Section Repeat.
Variable cs : charset.
Variable k : cont.

(** A repetition that succeeds has read class characters and handed the
    rest to the continuation. *)
Lemma star_lazy_sound (s : string) :
  forall pos g r,
    star_lazy cs k pos s g = Some r ->
    exists a t,
      s = a ++ t /\ all (mem cs) a = true /\
      k (pos + String.length a) t g = Some r.
Proof.
  induction s as [|c s IH]; intros pos g r; rewrite ReFacts.star_lazy_unfold.
  - destruct (k pos "" g) eqn:Hk; [|discriminate].
    intros [= <-]. exists "", "". now rewrite Nat.add_0_r.
  - destruct (k pos (String c s) g) eqn:Hk.
    + intros [= <-]. exists "", (String c s). now rewrite Nat.add_0_r.
    + destruct (mem cs c) eqn:Hc; [|discriminate].
      intros H. destruct (IH _ _ _ H) as (a & t & -> & Ha & Hr).
      exists (String c a), t. simpl. rewrite Hc, Nat.add_succ_r. auto.
Qed.

Lemma star_greedy_sound (s : string) :
  forall pos g r,
    star_greedy cs k pos s g = Some r ->
    exists a t,
      s = a ++ t /\ all (mem cs) a = true /\
      k (pos + String.length a) t g = Some r.
Proof.
  induction s as [|c s IH]; intros pos g r; simpl.
  - intros H. exists "", "". now rewrite Nat.add_0_r.
  - assert (Hhere : k pos (String c s) g = Some r ->
                    exists a t,
                      String c s = a ++ t /\ all (mem cs) a = true /\
                      k (pos + String.length a) t g = Some r)
      by (intros H; exists "", (String c s); now rewrite Nat.add_0_r).
    destruct (mem cs c) eqn:Hc; [|exact Hhere].
    destruct (star_greedy cs k (S pos) s g) as [r'|] eqn:Hrec; [|exact Hhere].
    intros [= <-]. destruct (IH _ _ _ Hrec) as (a & t & -> & Ha & Hr).
    exists (String c a), t. simpl. rewrite Hc, Nat.add_succ_r. auto.
Qed.
End Repeat.

(** [$] accepts the end of the string and the place before a last line
    feed, nothing else. *)
Lemma eol_sound (k : cont) (p : nat) (v : string) (g : spans)
  (r : nat * spans) :
  exec Eol k p v g = Some r ->
  (v = "" \/ v = String LF "") /\ k p v g = Some r.
Proof.
  destruct v as [|c [|c' v]]; simpl; [auto | | discriminate].
  destruct (Ascii.eqb_spec c LF) as [->|]; [auto | discriminate].
Qed.

Local Notation "'PAGE_EOL'" :=
  (Seq (Opt (Group 3 (Plus true Digit))) Eol).

Lemma page_eol_sound (v : string) (p e : nat) (g g' : spans) :
  exec PAGE_EOL accept p v g = Some (e, g') ->
  exists d tail,
    v = d ++ tail /\ all is_digit d = true /\
    (tail = "" \/ tail = String LF "") /\
    e = p + String.length d /\ g' = (page_span p d ++ g)%list.
Proof.
  rewrite ReFacts.exec_Seq, ReFacts.exec_Opt, ReFacts.exec_Group.
  rewrite ReFacts.exec_Plus_greedy.
  assert (Hskip : exec Eol accept p v g = Some (e, g') ->
                  exists d tail,
                    v = d ++ tail /\ all is_digit d = true /\
                    (tail = "" \/ tail = String LF "") /\
                    e = p + String.length d /\ g' = (page_span p d ++ g)%list).
  { intros H. apply eol_sound in H as [Hv [= <- <-]].
    exists "", v. now rewrite Nat.add_0_r. }
  destruct v as [|c v]; [exact Hskip|].
  cbn [mem]. destruct (is_digit c) eqn:Hc; [|exact Hskip].
  match goal with
  | |- match ?x with _ => _ end = _ -> _ => destruct x as [r|] eqn:Hrun
  end; [|exact Hskip].
  intros [= ->].
  apply star_greedy_sound in Hrun as (a & t & -> & Ha & Hk).
  apply eol_sound in Hk as [Ht [= <- <-]].
  change (all is_digit a = true) in Ha.
  exists (String c a), t. simpl. rewrite Hc, Ha, !Nat.add_succ_r. auto.
Qed.

End ReSound.

(** The groups of a match object whose spans cut the subject into a
    name, a separator, a text, page digits and a tail. *)
Lemma groups_of_cut (a w t d tail : string) (e : nat) :
  let p1 := String.length a + String.length w in
  let p2 := p1 + String.length t in
  let m :=
    Re.mkMatch (a ++ w ++ t ++ d ++ tail) 0 e
      (page_span p2 d ++ [(2, (p1, p2)); (1, (0, String.length a))])%list
  in
  Re.group m 1 = Some a /\
  Re.group m 2 = Some t /\
  Re.group m 3 = match d with EmptyString => None | String _ _ => Some d end.
Proof.
  intros p1 p2 m. subst m p2 p1. unfold Re.group.
  cbn [Re.m_spans Re.m_string]. repeat split.
  - replace (Re.span_of 1 _) with (Some (0, String.length a))
      by now destruct d.
    now rewrite Nat.sub_0_r, substring_prefix.
  - replace (Re.span_of 2 _)
      with (Some (String.length a + String.length w,
                  String.length a + String.length w + String.length t))
      by now destruct d.
    replace (String.length a + String.length w + String.length t
             - (String.length a + String.length w))
      with (String.length t) by lia.
    rewrite <- length_append, <- (append_assoc a w).
    now rewrite substring_middle.
  - destruct d as [|c d]; [reflexivity|].
    cbn [page_span app Re.span_of Nat.eqb].
    remember (String c d) as page eqn:Hpage.
    replace (String.length a + String.length w + String.length t
             + String.length page
             - (String.length a + String.length w + String.length t))
      with (String.length page) by lia.
    replace (a ++ w ++ t ++ page ++ tail)
      with (((a ++ w) ++ t) ++ page ++ tail)
      by now rewrite !append_assoc.
    rewrite <- !length_append, substring_middle.
    now rewrite Hpage.
Qed.

(** Every match of [RE_LINE], on any string, cuts the string that way. *)
Lemma RE_LINE_sound (s : string) (m : Re.Match) :
  Re.search RE_LINE s = Some m ->
  exists a w t d tail,
    s = a ++ w ++ t ++ d ++ tail /\
    has_lf a = false /\
    (w <> "" /\ all Re.is_space w = true) /\
    has_lf t = false /\
    all Re.is_digit d = true /\
    (tail = "" \/ tail = String LF "") /\
    m = Re.mkMatch s 0
          (String.length a + String.length w + String.length t
           + String.length d)
          (page_span (String.length a + String.length w + String.length t) d
           ++ [(2, (String.length a + String.length w,
                    String.length a + String.length w + String.length t));
               (1, (0, String.length a))])%list.
Proof.
  unfold RE_LINE. rewrite ReFacts.search_anchored.
  match goal with
  | |- match ?x with _ => _ end = _ -> _ => destruct x as [[e g]|] eqn:Hrun
  end; [|discriminate].
  intros [= <-].
  rewrite ReFacts.exec_Seq, ReFacts.exec_Group, ReFacts.exec_Star_lazy in Hrun.
  apply ReSound.star_lazy_sound in Hrun as (a & rest & -> & Ha & Hrun).
  rewrite ReFacts.exec_Seq, ReFacts.exec_Plus_greedy in Hrun.
  destruct rest as [|c rest]; [discriminate|].
  cbn [Re.mem] in Hrun. destruct (Re.is_space c) eqn:Hc; [|discriminate].
  apply ReSound.star_greedy_sound in Hrun as (w & rest' & -> & Hw & Hrun).
  rewrite ReFacts.exec_Seq, ReFacts.exec_Group, ReFacts.exec_Star_lazy in Hrun.
  apply ReSound.star_lazy_sound in Hrun as (t & v & -> & Ht & Hrun).
  apply ReSound.page_eol_sound in Hrun as (d & tail & -> & Hd & Htail & -> & ->).
  exists a, (String c w), t, d, tail.
  assert (Hlf : forall x, all (Re.mem Re.Any) x = true -> has_lf x = false).
  { clear. induction x as [|y x IH]; simpl; [reflexivity|].
    intros H. apply andb_prop in H as [Hy Hx]. unfold has_lf. simpl.
    apply negb_true_iff in Hy. rewrite Hy. exact (IH Hx). }
  simpl String.length. rewrite !Nat.add_succ_r, !Nat.add_0_l.
  repeat split; auto; try discriminate.
  simpl. rewrite Hc. exact Hw.
Qed.


(** ** The loop on any table *)










(** ** Further properties of the parser and of the emitter *)

(** X1: on every line with white space and no line feed, [RE_LINE] cuts
    the line into a name free of white space, a non-empty run of white
    space, a text and the digits the line ends with: group 1 is the
    name, group 2 the text, which neither begins with white space nor
    ends in a digit, and group 3 is the digits, or [None] when there
    are none. *)
Theorem RE_LINE_fields :
  forall s,
    has_space s = true -> has_lf s = false ->
    exists m name sep text page,
      Re.search RE_LINE s = Some m /\
      s = name ++ sep ++ text ++ page /\
      Re.group m 1 = Some name /\
      Re.group m 2 = Some text /\
      Re.group m 3 =
        match page with EmptyString => None | String _ _ => Some page end /\
      has_space name = false /\
      sep <> "" /\ all Re.is_space sep = true /\
      head_is Re.is_space (text ++ page) = false /\
      ends_in_digit text = false /\
      all Re.is_digit page = true.
Proof.
  intros s Hsp Hlf.
  destruct (RE_LINE_parses s Hsp Hlf)
    as (m & a & w & t & d & E & Hm & H1 & H2 & H3 & Ha & [Hne Hw] & Hh & Ht
        & Hd).
  exists m, a, w, t, d. repeat split; assumption.
Qed.

Lemma RE_LINE_fields_witness :
  exists m name sep text page,
    Re.search RE_LINE "Tf  selectfont Set size 12" = Some m /\
    "Tf  selectfont Set size 12" = name ++ sep ++ text ++ page /\
    Re.group m 1 = Some name /\
    Re.group m 2 = Some text /\
    Re.group m 3 =
      match page with EmptyString => None | String _ _ => Some page end /\
    has_space name = false /\
    sep <> "" /\ all Re.is_space sep = true /\
    head_is Re.is_space (text ++ page) = false /\
    ends_in_digit text = false /\
    all Re.is_digit page = true.
Proof.
  apply (RE_LINE_fields "Tf  selectfont Set size 12"); reflexivity.
Defined.

(** X2: on such a line the page group is present exactly when the line
    ends in a digit. *)
Theorem RE_LINE_page_iff_digit :
  forall s,
    has_space s = true -> has_lf s = false ->
    exists m,
      Re.search RE_LINE s = Some m /\
      (Re.group m 3 = None <-> ends_in_digit s = false).
Proof.
  intros s Hsp Hlf. destruct (ends_in_digit s) eqn:Hend.
  - destruct (RE_LINE_page s Hsp Hlf Hend)
      as (m & text & page & Hm & _ & H3 & _).
    exists m. split; [exact Hm|]. rewrite H3. split; discriminate.
  - destruct (RE_LINE_no_page s Hsp Hlf Hend) as (m & Hm & H3).
    exists m. split; [exact Hm|]. now rewrite H3.
Qed.

Lemma RE_LINE_page_iff_digit_witness :
  exists m,
    Re.search RE_LINE "gs (PDF 1.2)" = Some m /\
    (Re.group m 3 = None <-> ends_in_digit "gs (PDF 1.2)" = false).
Proof.
  apply (RE_LINE_page_iff_digit "gs (PDF 1.2)"); reflexivity.
Defined.

(** X3: whatever the string, a match of [RE_LINE] starts at offset 0,
    its groups 1 and 2 are strings (never [None]) without a line feed,
    and the string is group 1, white space, group 2, the digits of
    group 3 and at most one last line feed. *)
Theorem RE_LINE_match_cut :
  forall s m,
    Re.search RE_LINE s = Some m ->
    exists name sep text page tail,
      s = name ++ sep ++ text ++ page ++ tail /\
      Re.m_start m = 0 /\
      Re.group m 1 = Some name /\ has_lf name = false /\
      Re.group m 2 = Some text /\ has_lf text = false /\
      Re.group m 3 =
        match page with EmptyString => None | String _ _ => Some page end /\
      sep <> "" /\ all Re.is_space sep = true /\
      all Re.is_digit page = true /\
      (tail = "" \/ tail = String LF "").
Proof.
  intros s m Hm.
  destruct (RE_LINE_sound s m Hm)
    as (a & w & t & d & tail & -> & Ha & [Hne Hw] & Ht & Hd & Htail & ->).
  destruct (groups_of_cut a w t d tail
              (String.length a + String.length w + String.length t
               + String.length d)) as (H1 & H2 & H3).
  exists a, w, t, d, tail. repeat split; assumption.
Qed.

Lemma RE_LINE_match_cut_witness :
  exists name sep text page tail,
    String "a" (String LF "b 7") = name ++ sep ++ text ++ page ++ tail /\
    Re.m_start
      (Re.mkMatch (String "a" (String LF "b 7")) 0 5
         [(3, (4, 5)); (2, (2, 4)); (1, (0, 1))]) = 0 /\
    Re.group
      (Re.mkMatch (String "a" (String LF "b 7")) 0 5
         [(3, (4, 5)); (2, (2, 4)); (1, (0, 1))]) 1 = Some name /\
    has_lf name = false /\
    Re.group
      (Re.mkMatch (String "a" (String LF "b 7")) 0 5
         [(3, (4, 5)); (2, (2, 4)); (1, (0, 1))]) 2 = Some text /\
    has_lf text = false /\
    Re.group
      (Re.mkMatch (String "a" (String LF "b 7")) 0 5
         [(3, (4, 5)); (2, (2, 4)); (1, (0, 1))]) 3 =
      match page with EmptyString => None | String _ _ => Some page end /\
    sep <> "" /\ all Re.is_space sep = true /\
    all Re.is_digit page = true /\
    (tail = "" \/ tail = String LF "").
Proof.
  apply (RE_LINE_match_cut (String "a" (String LF "b 7"))). reflexivity.
Defined.

(** X4: on a line with white space and no line feed the name is empty
    exactly when the line begins with white space. *)
Theorem RE_LINE_empty_name :
  forall s,
    has_space s = true -> has_lf s = false ->
    exists m,
      Re.search RE_LINE s = Some m /\
      (Re.group m 1 = Some "" <-> head_is Re.is_space s = true).
Proof.
  intros s Hsp Hlf.
  destruct (RE_LINE_parses s Hsp Hlf)
    as (m & a & w & t & d & -> & Hm & H1 & _ & _ & Ha & [Hne Hw] & _).
  exists m. split; [exact Hm|]. rewrite H1.
  destruct w as [|c w]; [contradiction|].
  simpl in Hw. apply andb_prop in Hw as [Hc _].
  destruct a as [|x a]; simpl.
  - now rewrite Hc.
  - unfold has_space in Ha. simpl in Ha.
    apply orb_false_elim in Ha as [Hx _]. rewrite Hx.
    split; discriminate.
Qed.

Lemma RE_LINE_empty_name_witness :
  exists m,
    Re.search RE_LINE " BT Begin text object" = Some m /\
    (Re.group m 1 = Some ""
     <-> head_is Re.is_space " BT Begin text object" = true).
Proof.
  apply (RE_LINE_empty_name " BT Begin text object"); reflexivity.
Defined.

(** X5: a match of [RE_LINE] always spans the whole string, but for a
    last line feed: group 0 is the string, or the string without the
    line feed it ends with. *)
Theorem RE_LINE_whole_line :
  forall s m,
    Re.search RE_LINE s = Some m ->
    exists tail,
      (tail = "" \/ tail = String LF "") /\
      match Re.group m 0 with
      | Some body => s = body ++ tail
      | None => False
      end.
Proof.
  intros s m Hm.
  destruct (RE_LINE_sound s m Hm)
    as (a & w & t & d & tail & -> & _ & _ & _ & _ & Htail & ->).
  exists tail. split; [exact Htail|].
  unfold Re.group. cbn [Re.m_start Re.m_end Re.m_string].
  rewrite Nat.sub_0_r, <- !length_append.
  replace (a ++ w ++ t ++ d ++ tail) with ((((a ++ w) ++ t) ++ d) ++ tail)
    by now rewrite !append_assoc.
  now rewrite substring_prefix.
Qed.

Lemma RE_LINE_whole_line_witness :
  exists tail,
    (tail = "" \/ tail = String LF "") /\
    match
      Re.group
        (Re.mkMatch ("BT Begin" ++ String LF "") 0 8
           [(2, (3, 8)); (1, (0, 2))]) 0
    with
    | Some body => "BT Begin" ++ String LF "" = body ++ tail
    | None => False
    end.
Proof.
  apply (RE_LINE_whole_line ("BT Begin" ++ String LF "")). reflexivity.
Defined.


(** X7: on a line without a line feed, the body of the loop raises
    [AttributeError], leaving the output as it was, exactly when the
    line has no white space. *)
Theorem emit_row_raises_iff :
  forall i line out,
    has_lf line = false ->
    (emit_row i line out = (inr AttributeError, out)
     <-> has_space line = false).
Proof.
  intros i line out Hlf. split.
  - intros Hraise. destruct (has_space line) eqn:Hsp; [|reflexivity].
    pose proof (RE_LINE_accepts line Hsp Hlf) as Hm.
    destruct (row_text i line) as [text|] eqn:Ht.
    + rewrite (emit_row_prints _ _ _ out Ht) in Hraise. discriminate.
    + unfold row_text in Ht. now destruct (Re.search RE_LINE line).
  - intros Hsp. apply emit_row_raises. unfold row_text.
    now rewrite (RE_LINE_rejects line Hsp).
Qed.

Lemma emit_row_raises_iff_witness :
  emit_row 0 "BT" "" = (inr AttributeError, "") <-> has_space "BT" = false.
Proof.
  apply (emit_row_raises_iff 0 "BT" ""). reflexivity.
Defined.







(** X11: the index field written by [%3d] is exactly three columns
    wide for every index below 1000, so the comments of a table of
    fewer than 1000 rows line up: the line of a row is 21 characters
    longer than its name and text. *)
Theorem fmt_row_width :
  forall i name text,
    i < 1000 ->
    String.length (fmt_3d i) = 3 /\
    String.length (fmt_row (Some name) i (Some text))
    = 21 + String.length name + String.length text.
Proof.
  intros i name text Hi.
  assert (H3 : String.length (fmt_3d i) = 3).
  { assert (H : forallb (fun n => String.length (fmt_3d n) =? 3) (seq 0 1000)
                = true) by (vm_compute; reflexivity).
    rewrite forallb_forall in H. apply Nat.eqb_eq, H, in_seq. lia. }
  split; [exact H3|]. unfold fmt_row. cbn [fmt_s].
  rewrite !length_append, H3. simpl. lia.
Qed.

Lemma fmt_row_width_witness :
  String.length (fmt_3d 72) = 3 /\
  String.length (fmt_row (Some "BT") 72 (Some "Begin text object "))
  = 21 + String.length "BT" + String.length "Begin text object ".
Proof.
  apply (fmt_row_width 72 "BT" "Begin text object "). lia.
Defined.

(** ** A line that keeps its line feed *)

Section TrailingLineFeed.
Import Re.

Local Notation "'PAGE_EOL'" :=
  (Seq (Opt (Group 3 (Plus true Digit))) Eol).
Local Notation "'TEXT_ON'" := (Seq (Group 2 (Star false Any)) PAGE_EOL).
Local Notation "'SEP_ON'" := (Seq (Plus true Space) TEXT_ON).
Local Notation "'NL'" := (String LF "").

(** A greedy repetition fails before a tail when it cannot reach the
    tail and the continuation refuses everything longer than it. *)
Lemma star_greedy_stuck_before (cs : charset) (k : cont) (tail : string)
  (g : spans) (x : string) :
  all (mem cs) x = false ->
  (forall p c y, k p (String c y ++ tail) g = None) ->
  forall pos, star_greedy cs k pos (x ++ tail) g = None.
Proof.
  intros Hx Hk. induction x as [|c x IH]; intros pos; [discriminate|].
  simpl in Hx. cbn [append star_greedy].
  change (String c (x ++ tail)) with (String c x ++ tail). rewrite Hk.
  destruct (mem cs c); [|reflexivity]. simpl in Hx. now rewrite (IH Hx).
Qed.

Lemma eol_before_two (k : cont) (p : nat) (c : ascii) (y : string)
  (g : spans) :
  exec Eol k p (String c y ++ NL) g = None.
Proof. destruct y; reflexivity. Qed.

Lemma page_eol_digits_lf (d : string) (p : nat) (g : spans) :
  all is_digit d = true ->
  exec PAGE_EOL accept p (d ++ NL) g
  = Some (p + String.length d, page_span p d ++ g)%list.
Proof.
  intros Hd. rewrite ReFacts.exec_Seq, ReFacts.exec_Opt, ReFacts.exec_Group.
  rewrite ReFacts.exec_Plus_greedy. destruct d as [|c d].
  - simpl. now rewrite Nat.add_0_r.
  - simpl in Hd. apply andb_prop in Hd as [Hc Hd].
    cbn [append mem]. rewrite Hc.
    erewrite ReFacts.star_greedy_longest; [| exact Hd | reflexivity | reflexivity].
    simpl. now rewrite !Nat.add_succ_r.
Qed.

Lemma page_eol_rejects_lf (u : string) (p : nat) (g : spans) :
  u <> "" -> all is_digit u = false ->
  exec PAGE_EOL accept p (u ++ NL) g = None.
Proof.
  intros Hu Hall. destruct u as [|c u]; [contradiction|].
  rewrite ReFacts.exec_Seq, ReFacts.exec_Opt, ReFacts.exec_Group.
  rewrite ReFacts.exec_Plus_greedy, eol_before_two.
  cbn [append mem]. destruct (is_digit c) eqn:Hc; [|reflexivity].
  simpl in Hall. rewrite Hc in Hall. simpl in Hall.
  rewrite star_greedy_stuck_before; auto.
  intros q x y. apply eol_before_two.
Qed.

Lemma text_on_lf (t d : string) (p : nat) (g : spans) :
  has_lf t = false -> ends_in_digit t = false -> all is_digit d = true ->
  exec TEXT_ON accept p (t ++ d ++ NL) g =
  Some (p + String.length t + String.length d,
        page_span (p + String.length t) d ++ (2, (p, p + String.length t)) :: g)%list.
Proof.
  intros Hlf Hend Hd.
  rewrite ReFacts.exec_Seq, ReFacts.exec_Group, ReFacts.exec_Star_lazy.
  apply ReFacts.star_lazy_first.
  - now apply any_false_all.
  - intros a1 c a2 ->. rewrite <- append_assoc. apply page_eol_rejects_lf.
    + simpl. discriminate.
    + rewrite all_append. apply andb_false_intro1.
      destruct (all is_digit (String c a2)) eqn:Hall; [|reflexivity].
      unfold ends_in_digit in Hend.
      rewrite last_char_append in Hend by discriminate.
      destruct (last_char (String c a2)) as [x|] eqn:Hx.
      * now rewrite (all_last_char _ _ _ Hall Hx) in Hend.
      * now apply last_char_cons in Hx.
  - apply page_eol_digits_lf. exact Hd.
Qed.

Lemma RE_LINE_split_lf (a w t d : string) :
  has_space a = false -> has_lf a = false ->
  w <> "" -> all is_space w = true ->
  head_is is_space (t ++ d ++ NL) = false ->
  has_lf t = false -> ends_in_digit t = false -> all is_digit d = true ->
  let p1 := String.length a + String.length w in
  let p2 := p1 + String.length t in
  search RE_LINE (a ++ w ++ t ++ d ++ NL) =
  Some (mkMatch (a ++ w ++ t ++ d ++ NL) 0 (p2 + String.length d)
          (page_span p2 d ++ [(2, (p1, p2)); (1, (0, String.length a))])%list).
Proof.
  intros Hsa Hla Hw Hsp Hhead Hlf Hend Hd p1 p2. unfold RE_LINE.
  rewrite ReFacts.search_anchored.
  match goal with
  | |- context [exec ?r accept 0 ?s []] =>
      enough (E : exec r accept 0 s [] =
                  Some (p2 + String.length d,
                        page_span p2 d
                        ++ [(2, (p1, p2)); (1, (0, String.length a))])%list)
        by now rewrite E
  end.
  rewrite ReFacts.exec_Seq, ReFacts.exec_Group, ReFacts.exec_Star_lazy.
  apply ReFacts.star_lazy_first.
  - now apply any_false_all.
  - intros a1 c a2 ->. rewrite ReFacts.exec_Seq, ReFacts.exec_Plus_greedy.
    unfold has_space in Hsa. rewrite any_append in Hsa.
    apply orb_false_elim in Hsa as [_ Hsa]. simpl in Hsa.
    apply orb_false_elim in Hsa as [Hc _].
    cbn [append mem]. now rewrite Hc.
  - cbv beta. destruct w as [|c w]; [contradiction|].
    simpl in Hsp. apply andb_prop in Hsp as [Hc Hsp].
    rewrite ReFacts.exec_Seq, ReFacts.exec_Plus_greedy.
    cbn [append mem]. rewrite Hc.
    erewrite ReFacts.star_greedy_longest;
      [| exact Hsp | exact Hhead | now apply text_on_lf].
    subst p1 p2. simpl. rewrite !Nat.add_succ_r. reflexivity.
Qed.
End TrailingLineFeed.

(** X12: a line feed at the end of a line changes nothing to the
    parse: on a line with white space and no line feed, [RE_LINE]
    gives the same three groups whether or not a line feed follows. *)
Theorem RE_LINE_trailing_lf :
  forall s,
    has_space s = true -> has_lf s = false ->
    exists m m',
      Re.search RE_LINE s = Some m /\
      Re.search RE_LINE (s ++ String LF "") = Some m' /\
      Re.groups m' = Re.groups m.
Proof.
  intros s Hsp Hlf.
  destruct (RE_LINE_parses s Hsp Hlf)
    as (m & a & w & t & d & -> & Hm & H1 & H2 & H3 & Ha & [Hne Hw] & Hh & Ht
        & Hd).
  rewrite !has_lf_append in Hlf.
  apply orb_false_elim in Hlf as [Hla Hlf].
  apply orb_false_elim in Hlf as [_ Hlf].
  apply orb_false_elim in Hlf as [Hlt _].
  exists m. unfold Re.groups. rewrite H1, H2, H3.
  assert (Hcase : (t = "" /\ d = "")
                  \/ head_is Re.is_space (t ++ d ++ String LF "") = false).
  { destruct t as [|x t]; [destruct d as [|x d]|]; simpl in *; auto. }
  destruct Hcase as [[-> ->] | Hh'].
  - (* the line ends with its separator: the line feed joins it *)
    destruct (RE_LINE_groups a (w ++ String LF "") "" "")
      as (m' & Hm' & G1 & G2 & G3); auto.
    + destruct w; discriminate.
    + rewrite all_append, Hw. reflexivity.
    + exists m'. rewrite !append_empty_r in *.
      rewrite <- append_assoc in Hm'. rewrite G1, G2, G3. auto.
  - pose proof (RE_LINE_split_lf a w t d Ha Hla Hne Hw Hh' Hlt Ht Hd) as Hm'.
    cbv zeta in Hm'.
    destruct (groups_of_cut a w t d (String LF "")
                (String.length a + String.length w + String.length t
                 + String.length d)) as (G1 & G2 & G3).
    cbv zeta in G1, G2, G3.
    eexists. split; [exact Hm|]. split.
    + rewrite !append_assoc. exact Hm'.
    + now rewrite G1, G2, G3.
Qed.

Lemma RE_LINE_trailing_lf_witness :
  exists m m',
    Re.search RE_LINE "Tj show Show text 109" = Some m /\
    Re.search RE_LINE ("Tj show Show text 109" ++ String LF "") = Some m' /\
    Re.groups m' = Re.groups m.
Proof.
  apply (RE_LINE_trailing_lf "Tj show Show text 109"); reflexivity.
Defined.
